(** * weather-archive: the bucket seeding script [scripts/upload_script.py]

    A shallow embedding of the script and the proofs of its specification.

    The script depends on things it does not own: the file system ([open],
    [json.load]), the [random] module, the thread pool and a MinIO server
    behind the [minio] client.  Each is represented by what the script can
    observe of it:

    - the sensors file by the outcome of opening and parsing it;
    - [random] by CPython's own algorithms for [randint] and [sample], driven
      by an arbitrary stream of raw draws;
    - the server by a map from bucket names to buckets, a bucket being a map
      from object names to objects, together with the list of requests the
      client has sent so far;
    - the thread pool by an arbitrary stream of scheduling choices, and the
      failures of [put_object] by an arbitrary assignment of errors to tasks. *)

From Stdlib Require Import Ascii.
From stdpp Require Import base numbers list strings gmap pretty.

Set Warnings "-register-all".

(** ** Python values, as [json.load] produces them *)

(** A float is carried by its [repr] text: the script never computes with an
    identifier, it only formats it.  A JSON object is carried by its members
    in file order. *)
Inductive pyval : Type :=
  | PyNone
  | PyBool (b : bool)
  | PyInt (z : Z)
  | PyFloat (repr : string)
  | PyStr (s : string)
  | PyList (xs : list pyval)
  | PyDict (kvs : list (string * pyval)).

Global Instance pyval_eq_dec : EqDecision pyval.
Proof.
  refine (
    fix go (x y : pyval) {struct x} : Decision (x = y) :=
      let _ : EqDecision pyval := @go in
      match x, y with
      | PyNone, PyNone => left _
      | PyBool a, PyBool b => cast_if (decide (a = b))
      | PyInt a, PyInt b => cast_if (decide (a = b))
      | PyFloat a, PyFloat b => cast_if (decide (a = b))
      | PyStr a, PyStr b => cast_if (decide (a = b))
      | PyList a, PyList b => cast_if (decide (a = b))
      | PyDict a, PyDict b => cast_if (decide (a = b))
      | _, _ => right _
      end); congruence.
Defined.

Global Instance pyval_inhabited : Inhabited pyval := populate PyNone.

(** ** Exceptions and results *)

Inductive exn : Type :=
  | FileNotFoundError
  | JSONDecodeError
  | TypeError
  | KeyError.

Global Instance exn_eq_dec : EqDecision exn.
Proof. solve_decision. Defined.

Inductive result (A : Type) : Type :=
  | Ok (a : A)
  | Raise (e : exn).
Arguments Ok {A} a.
Arguments Raise {A} e.

Global Instance result_ret : MRet result := fun A a => Ok a.
Global Instance result_bind : MBind result := fun A B f m =>
  match m with
  | Ok a => f a
  | Raise e => Raise e
  end.

(** ** Configuration *)

Definition BUCKET_NAME : string := "paws".
Definition YEARS : list Z := [2022; 2023; 2024; 2025]%Z.
Definition JSON_FILE : string := "sensors.json".

(** ** The sensor loader

    [with open(JSON_FILE, 'r') as f:
         sensors = [item['id'] for item in json.load(f) if 'id' in item]] *)

(** What [open] followed by [json.load] comes to. *)
Inductive file_outcome : Type :=
  | Missing                  (* open raises FileNotFoundError *)
  | Malformed                (* json.load raises JSONDecodeError *)
  | Parsed (v : pyval).      (* json.load returns v *)

(** [d[k]] on the members of a JSON object: [json.load] keeps the last value
    of a repeated key. *)
Fixpoint dict_get (k : string) (kvs : list (string * pyval)) : option pyval :=
  match kvs with
  | [] => None
  | (k', v) :: rest =>
      match dict_get k rest with
      | Some v' => Some v'
      | None => if decide (k' = k) then Some v else None
      end
  end.

(** The keys of a dict, each once, in order of first insertion. *)
Definition dict_keys (kvs : list (string * pyval)) : list string :=
  reverse (remove_dups (reverse (kvs.*1))).

(** [p in s] on two strings. *)
Fixpoint is_substring (p s : string) : bool :=
  String.prefix p s ||
  match s with
  | EmptyString => false
  | String _ s' => is_substring p s'
  end.

Definition chars (s : string) : list string :=
  (fun c => String c EmptyString) <$> String.list_ascii_of_string s.

(** [for item in v]. *)
Definition py_iter (v : pyval) : result (list pyval) :=
  match v with
  | PyList xs => Ok xs
  | PyDict kvs => Ok (PyStr <$> dict_keys kvs)
  | PyStr s => Ok (PyStr <$> chars s)
  | PyNone | PyBool _ | PyInt _ | PyFloat _ => Raise TypeError
  end.

(** ['id' in item]. *)
Definition py_contains (k : string) (item : pyval) : result bool :=
  match item with
  | PyDict kvs => Ok (bool_decide (k ∈ kvs.*1))
  | PyList xs => Ok (bool_decide (PyStr k ∈ xs))
  | PyStr s => Ok (is_substring k s)
  | PyNone | PyBool _ | PyInt _ | PyFloat _ => Raise TypeError
  end.

(** [item['id']]. *)
Definition py_getitem (item : pyval) (k : string) : result pyval :=
  match item with
  | PyDict kvs =>
      match dict_get k kvs with
      | Some v => Ok v
      | None => Raise KeyError
      end
  | _ => Raise TypeError
  end.

(** [[item['id'] for item in items if 'id' in item]]. *)
Fixpoint comprehension (items : list pyval) : result (list pyval) :=
  match items with
  | [] => Ok []
  | item :: rest =>
      c ← py_contains "id" item;
      if (c : bool) then
        v ← py_getitem item "id";
        vs ← comprehension rest;
        mret (v :: vs)
      else comprehension rest
  end.

Definition load_sensors (f : file_outcome) : result (list pyval) :=
  match f with
  | Missing => Raise FileNotFoundError
  | Malformed => Raise JSONDecodeError
  | Parsed v => items ← py_iter v; comprehension items
  end.

(** ** Formatting *)

(** [format(z, '0{width}d')]: the sign first, then zeros up to the width,
    then the decimal digits. *)
Definition format_0d (width : nat) (z : Z) : string :=
  let sign := if bool_decide (z < 0)%Z then "-" else "" in
  let digits := pretty (Z.abs_N z) in
  sign +:+ String.concat "" (replicate (width - String.length sign - String.length digits) "0")
       +:+ digits.

(** [s.lower()].  Only the letters A-Z are mapped: no character outside ASCII
    lowers to one of [t], [r], [u], [e], so the comparison with ['true']
    below is not affected. *)
Definition ascii_lower (c : ascii) : ascii :=
  let n := nat_of_ascii c in
  if bool_decide (65 ≤ n ≤ 90) then ascii_of_nat (n + 32) else c.

Fixpoint lower (s : string) : string :=
  match s with
  | EmptyString => EmptyString
  | String c s' => String (ascii_lower c) (lower s')
  end.

(** ** The client

    [Minio(os.getenv('MINIO_ENDPOINT', 'localhost:9000'),
           access_key=os.getenv('MINIO_ACCESS_KEY'),
           secret_key=os.getenv('MINIO_SECRET_KEY'),
           secure=os.getenv('MINIO_SECURE', 'false').lower() == 'true')] *)

Record client_config : Type := {
  endpoint : string;
  access_key : option string;
  secret_key : option string;
  secure : bool
}.

Definition getenv (environ : gmap string string) (key : string) : option string :=
  environ !! key.

Definition getenv_default (environ : gmap string string) (key dflt : string) : string :=
  default dflt (environ !! key).

Definition create_minio_client (environ : gmap string string) : client_config :=
  {| endpoint := getenv_default environ "MINIO_ENDPOINT" "localhost:9000";
     access_key := getenv environ "MINIO_ACCESS_KEY";
     secret_key := getenv environ "MINIO_SECRET_KEY";
     secure := bool_decide (lower (getenv_default environ "MINIO_SECURE" "false") = "true") |}.

(** ** The object store *)

Record object : Type := {
  body : list Byte.byte;
  content_type : string
}.

Inductive request : Type :=
  | BucketExists (bucket : string)
  | MakeBucket (bucket : string)
  | ListObjects (bucket : string) (recursive : bool)
  | PutObject (bucket name : string) (data : list Byte.byte) (len : nat)
              (ctype : string).

(** The server's buckets, the requests sent so far (oldest first) and the
    lines printed so far. *)
Record state : Type := {
  server : gmap string (gmap string object);
  requests : list request;
  stdout : list string
}.

Definition send (r : request) (st : state) : state :=
  {| server := server st; requests := requests st ++ [r]; stdout := stdout st |}.

Definition print (line : string) (st : state) : state :=
  {| server := server st; requests := requests st; stdout := stdout st ++ [line] |}.

Definition bucket_exists (bucket : string) (st : state) : bool * state :=
  (bool_decide (is_Some (server st !! bucket)), send (BucketExists bucket) st).

Definition make_bucket (bucket : string) (st : state) : state :=
  let st' := send (MakeBucket bucket) st in
  {| server := <[bucket := ∅]> (server st');
     requests := requests st'; stdout := stdout st' |}.

(** [list(client.list_objects(bucket, recursive=True))]: the names of all the
    objects of the bucket. *)
Definition list_objects (bucket : string) (recursive : bool) (st : state)
  : list string * state :=
  (match server st !! bucket with
   | Some objs => (map_to_list objs).*1
   | None => []
   end, send (ListObjects bucket recursive) st).

(** [put_object] sends the request; the server stores the first [len] bytes
    of the data under the name, replacing what was there.  [fault] is the
    error this request meets on its way, if any (network, authentication,
    server); a bucket that does not exist is an error of the server.  The
    three calls above are those of the guard of [main]; they are taken on a
    server that answers them. *)
Definition put_object (fault : option string) (bucket name : string)
    (data : list Byte.byte) (len : nat) (ctype : string) (st : state)
  : option string * state :=
  let st' := send (PutObject bucket name data len ctype) st in
  match fault with
  | Some e => (Some e, st')
  | None =>
      match server st' !! bucket with
      | None => (Some "NoSuchBucket", st')
      | Some objs =>
          (None,
           {| server := <[bucket := <[name := {| body := take len data;
                                                 content_type := ctype |}]> objs]>
                          (server st');
              requests := requests st'; stdout := stdout st' |})
      end
  end.

(** ** The uploader *)

Section Uploader.

(** [str] of a list or a dict, which Python derives from the [repr] of the
    members; left open. *)
Variable py_repr : pyval -> string.

(** [f"{v}"]. *)
Definition py_format (v : pyval) : string :=
  match v with
  | PyStr s => s
  | PyInt z => pretty z
  | PyFloat r => r
  | PyBool true => "True"
  | PyBool false => "False"
  | PyNone => "None"
  | PyList _ | PyDict _ => py_repr v
  end.

Definition test_data : list Byte.byte := [Byte.x74; Byte.x65; Byte.x73; Byte.x74].

Definition upload_filename (sensor_id : pyval) (year month : Z) : string :=
  py_format sensor_id +:+ "_" +:+ pretty year +:+ "_" +:+ format_0d 2 month +:+ ".csv".

(** [upload_single(minio_client, sensor_id, year, month)]; [fault] is what
    the client's request meets. *)
Definition upload_single (fault : option string) (sensor_id : pyval)
    (year month : Z) (st : state) : bool * state :=
  let filename := upload_filename sensor_id year month in
  let data := test_data in
  match put_object fault BUCKET_NAME filename data (length data) "text/csv" st with
  | (None, st') => (true, print ("Uploaded " +:+ filename) st')
  | (Some e, st') => (false, print ("Failed " +:+ filename +:+ ": " +:+ e) st')
  end.

End Uploader.

(** ** The [random] module

    [raw] is the stream of raw draws of the generator and the position in it
    is threaded through the calls: [randbelow n] reduces the next draw to
    [0 .. n-1], so every value the real generator can return is returned for
    some stream. *)

Section Random.

Variable raw : nat -> nat.

Definition randbelow (n : nat) (p : nat) : nat * nat := (raw p mod n, S p).

(** [random.randint(a, b)] is [a + randbelow(b - a + 1)]. *)
Definition randint (a b : Z) (p : nat) : Z * nat :=
  let '(j, p') := randbelow (Z.to_nat (b - a + 1)) p in ((a + Z.of_nat j)%Z, p').

(** The loop of [random.sample] over its pool, the branch CPython takes for a
    population of at most 21 elements:
    [for i in range(k):
         j = randbelow(n - i)
         result[i] = pool[j]
         pool[j] = pool[n - i - 1]] *)
Fixpoint sample_loop (n k i : nat) (pool : list Z) (p : nat) : list Z * nat :=
  match k with
  | 0 => ([], p)
  | S k' =>
      let '(j, p1) := randbelow (n - i) p in
      let x := pool !!! j in
      let pool' := <[j := pool !!! (n - i - 1)]> pool in
      let '(rest, p2) := sample_loop n k' (S i) pool' p1 in
      (x :: rest, p2)
  end.

(** [random.sample(population, k)], for [k <= len(population) <= 21]. *)
Definition sample (population : list Z) (k : nat) (p : nat) : list Z * nat :=
  sample_loop (length population) k 0 population p.

(** ** The task generator *)

Definition task : Type := pyval * Z * Z.

(** [months = random.sample(range(1, 13), random.randint(2, 4))
     for month in months: tasks.append((sensor_id, year, month))] *)
Definition year_tasks (sensor_id : pyval) (year : Z) (p : nat) : list task * nat :=
  let '(k, p1) := randint 2 4 p in
  let '(months, p2) := sample (seqZ 1 12) (Z.to_nat k) p1 in
  ((fun month => (sensor_id, year, month)) <$> months, p2).

(** [for year in years: ...] *)
Fixpoint years_loop (sensor_id : pyval) (years : list Z) (p : nat) : list task * nat :=
  match years with
  | [] => ([], p)
  | year :: rest =>
      let '(ts, p1) := year_tasks sensor_id year p in
      let '(ts', p2) := years_loop sensor_id rest p1 in
      (ts ++ ts', p2)
  end.

(** [for sensor_id in sensors: for year in YEARS: ...] *)
Fixpoint sensors_loop (sensors : list pyval) (p : nat) : list task * nat :=
  match sensors with
  | [] => ([], p)
  | sensor_id :: rest =>
      let '(ts, p1) := years_loop sensor_id YEARS p in
      let '(ts', p2) := sensors_loop rest p1 in
      (ts ++ ts', p2)
  end.

Definition generate_tasks (sensors : list pyval) : list task :=
  (sensors_loop sensors 0).1.

End Random.

(** ** The worker pool and [main] *)

Section Main.

Variable py_repr : pyval -> string.

(** The pool runs the submitted tasks in an order of its own.  Each body of
    [upload_single] is taken as one step; at every step [sched] picks which
    of the pending tasks runs next, so every order in which the eight workers
    can reach the server is the run of some [sched].  [faults] gives the error
    that the request of the task submitted [i]-th meets, if any.  The results
    are listed in order of completion. *)
Fixpoint run_pool (sched : nat -> nat) (faults : nat -> option string)
    (n step : nat) (pending : list (nat * task)) (st : state)
  : list bool * state :=
  match n with
  | 0 => ([], st)
  | S n' =>
      let j := sched step mod length pending in
      match pending !! j with
      | None => ([], st)
      | Some (i, (sensor_id, year, month)) =>
          let '(r, st1) := upload_single py_repr (faults i) sensor_id year month st in
          let '(rs, st2) := run_pool sched faults n' (S step) (delete j pending) st1 in
          (r :: rs, st2)
      end
  end.

(** Everything [main] depends on. *)
Record world : Type := {
  sensors_file : file_outcome;
  environ : gmap string string;
  buckets : gmap string (gmap string object);
  raw_draws : nat -> nat;
  sched : nat -> nat;
  faults : nat -> option string
}.

Inductive exit_status : Type :=
  | Returned
  | Raised (e : exn).

Record outcome : Type := {
  status : exit_status;
  client : option client_config;
  final : state
}.

(** [sum(1 for f in as_completed(futures) if f.result())] *)
Definition count_successful (results : list bool) : nat :=
  length (filter Is_true results).

Definition report (successful total : nat) : string :=
  String "010" ("Completed: " +:+ pretty successful +:+ "/" +:+ pretty total
                +:+ " files uploaded").

Definition skip_message : string :=
  "Bucket '" +:+ BUCKET_NAME +:+ "' already contains data. Skipping upload.".

(** Lines 58-74 of the script: generate the tasks, upload them in parallel,
    print the count. *)
Definition generate_and_upload (w : world) (sensors : list pyval)
    (cfg : client_config) (st : state) : outcome :=
  let tasks := generate_tasks (raw_draws w) sensors in
  let futures := imap (fun i t => (i, t)) tasks in
  let '(results, st') := run_pool (sched w) (faults w) (length futures) 0 futures st in
  let successful := count_successful results in
  {| status := Returned; client := Some cfg;
     final := print (report successful (length tasks)) st' |}.

Definition main (w : world) : outcome :=
  let st0 := {| server := buckets w; requests := []; stdout := [] |} in
  match load_sensors (sensors_file w) with
  | Raise e => {| status := Raised e; client := None; final := st0 |}
  | Ok sensors =>
      let cfg := create_minio_client (environ w) in
      let '(ex, st1) := bucket_exists BUCKET_NAME st0 in
      if negb ex then
        generate_and_upload w sensors cfg (make_bucket BUCKET_NAME st1)
      else
        let '(objects, st2) := list_objects BUCKET_NAME true st1 in
        if bool_decide (objects ≠ []) then
          {| status := Returned; client := Some cfg; final := print skip_message st2 |}
        else
          generate_and_upload w sensors cfg st2
  end.

End Main.

(** The requests that write an object. *)
Definition is_put (r : request) : bool :=
  match r with
  | PutObject _ _ _ _ _ => true
  | _ => false
  end.

Definition uploads (rs : list request) : list request := filter (fun r => is_put r) rs.

(** A run on the sensors file of the specification's example. *)
Definition example_world : world :=
  {| sensors_file := Parsed (PyList [PyDict [("id", PyStr "s1")];
                                     PyDict [("id", PyStr "s2")];
                                     PyDict [("no_id", PyStr "x")]]);
     environ := ∅;
     buckets := ∅;
     raw_draws := fun p => 5 * p + 1;
     sched := fun step => 3 * step;
     faults := fun i => if bool_decide (i = 2) then Some "timed out" else None |}.

(** A run on a sensors file that names the same sensor twice, with a
    generator that always draws 0. *)
Definition dup_world : world :=
  {| sensors_file := Parsed (PyList [PyDict [("id", PyStr "a")];
                                     PyDict [("id", PyStr "a")]]);
     environ := ∅;
     buckets := ∅;
     raw_draws := fun _ => 0;
     sched := fun step => step;
     faults := fun _ => None |}.

(** ** Vocabulary of the specification *)

(** A record is a JSON object; it contains an [id] key when one of its
    members is named [id], and its identifier is the value [json.load] keeps
    for that key. *)
Definition is_record (item : pyval) : Prop :=
  match item with
  | PyDict _ => True
  | _ => False
  end.

Definition has_id (item : pyval) : Prop :=
  match item with
  | PyDict kvs => "id" ∈ kvs.*1
  | _ => False
  end.

Global Instance has_id_dec item : Decision (has_id item).
Proof. destruct item; simpl; apply _. Defined.

Definition record_id (item : pyval) : option pyval :=
  match item with
  | PyDict kvs => dict_get "id" kvs
  | _ => None
  end.

(** The values of MINIO_SECURE that differ from ["true"] in letter case
    only. *)
Definition true_spellings : list string :=
  ["true"; "truE"; "trUe"; "trUE"; "tRue"; "tRuE"; "tRUe"; "tRUE";
   "True"; "TruE"; "TrUe"; "TrUE"; "TRue"; "TRuE"; "TRUe"; "TRUE"].

(** The object every upload stores. *)
Definition test_object : object :=
  {| body := test_data; content_type := "text/csv" |}.

(** The months of one (sensor, year) pair as the specification wants them. *)
Definition good_months (months : list Z) : Prop :=
  2 ≤ length months ≤ 4 ∧ NoDup months ∧ Forall (fun m => 1 ≤ m ≤ 12)%Z months.

(** The tasks of one (sensor, year) pair, given its months. *)
Definition block (sy : pyval * Z) (months : list Z) : list task :=
  (fun month => (sy.1, sy.2, month)) <$> months.

(** The (sensor, year) pairs in the order the generator visits them. *)
Definition sensor_years (sensors : list pyval) : list (pyval * Z) :=
  flat_map (fun sensor_id => (fun year => (sensor_id, year)) <$> YEARS) sensors.

Definition task_sensor (t : task) : pyval := t.1.1.
Definition task_year (t : task) : Z := t.1.2.
Definition task_month (t : task) : Z := t.2.

Section Vocabulary.

Variable py_repr : pyval -> string.

Definition task_filename (t : task) : string :=
  upload_filename py_repr (task_sensor t) (task_year t) (task_month t).

(** The request a task sends. *)
Definition put_request (t : task) : request :=
  PutObject BUCKET_NAME (task_filename t) test_data 4 "text/csv".

Variable faults : nat -> option string.

(** What becomes of the task submitted [i]-th, given the faults. *)
Definition upload_ok (it : nat * task) : bool := bool_decide (faults it.1 = None).

Definition upload_line (it : nat * task) : string :=
  match faults it.1 with
  | None => "Uploaded " +:+ task_filename it.2
  | Some e => "Failed " +:+ task_filename it.2 +:+ ": " +:+ e
  end.

(** The bucket after the successful tasks of [order] have been stored. *)
Definition store_all (order : list (nat * task)) (objs : gmap string object)
  : gmap string object :=
  foldl (fun objs it => if upload_ok it then <[task_filename it.2 := test_object]> objs
                        else objs) objs order.

End Vocabulary.

(** The state [main] starts from. *)
Definition initial (w : world) : state :=
  {| server := buckets w; requests := []; stdout := [] |}.

(** The request that follows the existence check when uploads go ahead. *)
Definition guard_request (w : world) : request :=
  match buckets w !! BUCKET_NAME with
  | None => MakeBucket BUCKET_NAME
  | Some _ => ListObjects BUCKET_NAME true
  end.

(** ** Vocabulary of the further properties *)

(** The values that are neither a container nor a string. *)
Definition is_scalar (v : pyval) : Prop :=
  match v with
  | PyNone | PyBool _ | PyInt _ | PyFloat _ => True
  | PyStr _ | PyList _ | PyDict _ => False
  end.


(** The environment variables [create_minio_client] reads. *)
Definition client_variables : list string :=
  ["MINIO_ENDPOINT"; "MINIO_ACCESS_KEY"; "MINIO_SECRET_KEY"; "MINIO_SECURE"].

(** What [upload_single] appends to the formatted sensor. *)
Definition filename_suffix (year month : Z) : string :=
  "_" +:+ pretty year +:+ "_" +:+ format_0d 2 month +:+ ".csv".


(** * Sanity checks *)

Example load_example :
  load_sensors (Parsed (PyList [PyDict [("id", PyStr "s1")];
                                PyDict [("id", PyStr "s2")];
                                PyDict [("no_id", PyStr "x")]]))
  = Ok [PyStr "s1"; PyStr "s2"].
Proof. reflexivity. Qed.

Example filename_example :
  upload_filename (fun _ => "") (PyStr "s1") 2022 3 = "s1_2022_03.csv".
Proof. vm_compute. reflexivity. Qed.

Example format_examples :
  format_0d 2 12 = "12" /\ format_0d 2 0 = "00" /\ format_0d 2 (-5) = "-5"
  /\ format_0d 3 (-5) = "-05" /\ format_0d 2 123 = "123" /\ lower "TrUe" = "true".
Proof. vm_compute. repeat split. Qed.

Example example_tasks :
  take 5 (generate_tasks (raw_draws example_world) [PyStr "s1"])
  = [(PyStr "s1", 2022, 7); (PyStr "s1", 2022, 1); (PyStr "s1", 2022, 12);
     (PyStr "s1", 2023, 3); (PyStr "s1", 2023, 10)]%Z.
Proof. vm_compute. reflexivity. Qed.

Example example_run :
  let o := main (fun _ => "") example_world in
  status o = Returned
  /\ take 3 (requests (final o))
     = [BucketExists "paws"; MakeBucket "paws";
        PutObject "paws" "s1_2022_07.csv" test_data 4 "text/csv"]
  /\ length (uploads (requests (final o))) = 17
  /\ "Failed s1_2022_12.csv: timed out" ∈ stdout (final o)
  /\ last (stdout (final o)) = Some (report 16 17).
Proof. vm_compute. repeat split. repeat constructor. Qed.

(** * The sensor loader *)

Lemma dict_get_is_Some k kvs : is_Some (dict_get k kvs) ↔ k ∈ kvs.*1.
Proof.
  induction kvs as [|[k' v] rest IH]; simpl.
  - split; [intros [? ?]; discriminate | intros H; inversion H].
  - rewrite elem_of_cons, <- IH.
    destruct (dict_get k rest) as [v'|] eqn:E.
    + split; [right|]; eauto.
    + case_decide; subst.
      * split; [left|]; eauto.
      * split; [intros [? ?]; discriminate|].
        intros [->|[? ?]]; [contradiction | discriminate].
Qed.

Lemma has_id_record_id item : has_id item ↔ is_Some (record_id item).
Proof.
  destruct item; simpl; try (split; [tauto | intros [? ?]; discriminate]).
  symmetry. apply dict_get_is_Some.
Qed.

(** On an array of records the comprehension keeps the identifiers of the
    records that have one, in order. *)
Lemma comprehension_records items :
  Forall is_record items → comprehension items = Ok (omap record_id items).
Proof.
  induction 1 as [|item rest Hrec _ IH]; [reflexivity|].
  destruct item as [| | | | | |kvs]; try contradiction.
  cbn [comprehension py_contains py_getitem omap list_omap record_id mbind result_bind].
  destruct (dict_get "id" kvs) as [v|] eqn:E.
  - rewrite bool_decide_eq_true_2 by (apply dict_get_is_Some; eauto).
    rewrite IH. reflexivity.
  - rewrite bool_decide_eq_false_2; [exact IH|].
    rewrite <- dict_get_is_Some, E. intros [? ?]; discriminate.
Qed.

Lemma length_omap_record_id items :
  length (omap record_id items) = length (filter has_id items).
Proof.
  induction items as [|item rest IH]; [reflexivity|].
  rewrite filter_cons. cbn [omap list_omap].
  destruct (decide (has_id item)) as [H|H].
  - apply has_id_record_id in H as [v ->]. simpl. by rewrite <- IH.
  - destruct (record_id item) eqn:E; [|exact IH].
    exfalso. apply H, has_id_record_id. eauto.
Qed.

(** The loader never consults anything but the [id] member. *)
Lemma count_omap_record_id (v : pyval) items :
  length (filter (fun x => x = v) (omap record_id items))
  = length (filter (fun item => record_id item = Some v) items).
Proof.
  induction items as [|item rest IH]; [reflexivity|].
  rewrite (filter_cons (fun item => record_id item = Some v)). cbn [omap list_omap].
  destruct (record_id item) as [x|] eqn:E.
  - rewrite filter_cons.
    destruct (decide (x = v)) as [->|Hne].
    + rewrite decide_True by reflexivity. simpl. by rewrite IH.
    + rewrite decide_False by congruence. exact IH.
  - rewrite decide_False by discriminate. exact IH.
Qed.

(** An element that is not a record stops the load: a number cannot be
    searched for a key, and a string or a list that holds ["id"] cannot be
    indexed by it. *)
Example load_not_a_record :
  load_sensors (Parsed (PyList [PyDict [("id", PyStr "s1")]; PyInt 5])) = Raise TypeError
  /\ load_sensors (Parsed (PyList [PyStr "hide"])) = Raise TypeError
  /\ load_sensors (Parsed (PyInt 5)) = Raise TypeError
  /\ load_sensors (Parsed (PyDict [("a", PyInt 1)])) = Ok [].
Proof. repeat split. Qed.

(** C2. For a sensors file that parses to an array of records, N of which
    contain an [id] key, the loaded sensor list has length N whatever other
    fields the records have; it is the sequence of the [id] values of those
    records in file order, and the records without an [id] key are dropped. *)
Theorem C2_sensor_list (items : list pyval) :
  Forall is_record items →
  ∃ sensors,
    load_sensors (Parsed (PyList items)) = Ok sensors
    ∧ length sensors = length (filter has_id items)
    ∧ sensors = omap record_id items.
Proof.
  intros Hrec. exists (omap record_id items). split_and!.
  - simpl. by apply comprehension_records.
  - apply length_omap_record_id.
  - reflexivity.
Qed.

Lemma C2_sensor_list_witness :
  let items := [PyDict [("name", PyStr "north"); ("id", PyStr "s1")];
                PyDict [("no_id", PyStr "x")];
                PyDict [("id", PyStr "s2"); ("lat", PyFloat "48.5")]] in
  Forall is_record items
  ∧ ∃ sensors,
      load_sensors (Parsed (PyList items)) = Ok sensors
      ∧ length sensors = length (filter has_id items)
      ∧ sensors = omap record_id items.
Proof.
  intros items.
  assert (Hrec : Forall is_record items) by (repeat constructor).
  split; [exact Hrec | exact (C2_sensor_list items Hrec)].
Defined.

(** * The client *)

Local Ltac by_ascii_cases c :=
  destruct c as [[] [] [] [] [] [] [] []]; vm_compute;
  let H := fresh in intros H; try discriminate H; auto.

Lemma ascii_lower_t c : ascii_lower c = "t"%char → c = "t"%char ∨ c = "T"%char.
Proof. by_ascii_cases c. Qed.
Lemma ascii_lower_r c : ascii_lower c = "r"%char → c = "r"%char ∨ c = "R"%char.
Proof. by_ascii_cases c. Qed.
Lemma ascii_lower_u c : ascii_lower c = "u"%char → c = "u"%char ∨ c = "U"%char.
Proof. by_ascii_cases c. Qed.
Lemma ascii_lower_e c : ascii_lower c = "e"%char → c = "e"%char ∨ c = "E"%char.
Proof. by_ascii_cases c. Qed.

(** A value lowers to ["true"] exactly when it spells it in some letter
    case. *)
Lemma lower_true (v : string) : lower v = "true" ↔ v ∈ true_spellings.
Proof.
  split.
  - destruct v as [|c1 [|c2 [|c3 [|c4 [|c5 v]]]]]; cbn [lower]; try discriminate.
    intros H. injection H as H1 H2 H3 H4.
    apply ascii_lower_t in H1. apply ascii_lower_r in H2.
    apply ascii_lower_u in H3. apply ascii_lower_e in H4.
    destruct H1 as [-> | ->], H2 as [-> | ->], H3 as [-> | ->], H4 as [-> | ->];
      apply (bool_decide_unpack _); vm_compute; reflexivity.
  - unfold true_spellings. intros H.
    repeat (apply elem_of_cons in H as [-> | H]; [reflexivity|]).
    inversion H.
Qed.

(** C7, as the code has it. The endpoint is MINIO_ENDPOINT, or
    [localhost:9000] when it is unset; secure mode is on exactly when
    MINIO_SECURE, lowered, is ["true"], that is when it spells ["true"] in
    some letter case, and off when it is unset. *)
Theorem C7_client_config (environ : gmap string string) :
  endpoint (create_minio_client environ)
  = match environ !! "MINIO_ENDPOINT" with
    | Some v => v
    | None => "localhost:9000"
    end
  ∧ secure (create_minio_client environ)
    = match environ !! "MINIO_SECURE" with
      | Some v => bool_decide (lower v = "true")
      | None => false
      end
  ∧ secure (create_minio_client environ)
    = match environ !! "MINIO_SECURE" with
      | Some v => bool_decide (v ∈ true_spellings)
      | None => false
      end.
Proof.
  unfold create_minio_client, getenv_default; simpl. split_and!.
  - by destruct (environ !! "MINIO_ENDPOINT").
  - by destruct (environ !! "MINIO_SECURE").
  - destruct (environ !! "MINIO_SECURE") as [v|]; [|reflexivity].
    simpl. apply bool_decide_ext, lower_true.
Qed.

(** C7 as stated fails: with MINIO_SECURE set to [TRUE] secure mode is on,
    though the variable is not the string ["true"]. *)
Lemma C7_secure_not_exact :
  let environ : gmap string string := {["MINIO_SECURE" := "TRUE"]} in
  ¬ (secure (create_minio_client environ) = true
     ↔ environ !! "MINIO_SECURE" = Some "true").
Proof.
  intros environ [H _].
  assert (Hs : secure (create_minio_client environ) = true) by (vm_compute; reflexivity).
  specialize (H Hs). vm_compute in H. discriminate H.
Qed.

(** * The uploader *)

Section UploaderFacts.

Variable py_repr : pyval -> string.

(** One upload, on a server that has the bucket. *)
Lemma upload_single_eq fault sensor_id year month st objs :
  server st !! BUCKET_NAME = Some objs →
  upload_single py_repr fault sensor_id year month st
  = (bool_decide (fault = None),
     {| server := match fault with
                  | None => <[BUCKET_NAME :=
                               <[upload_filename py_repr sensor_id year month
                                   := test_object]> objs]> (server st)
                  | Some _ => server st
                  end;
        requests := requests st ++ [put_request py_repr (sensor_id, year, month)];
        stdout := stdout st
                  ++ [match fault with
                      | None => "Uploaded " +:+ upload_filename py_repr sensor_id year month
                      | Some e => "Failed " +:+ upload_filename py_repr sensor_id year month
                                  +:+ ": " +:+ e
                      end] |}).
Proof.
  intros Hb. unfold upload_single, put_object. cbn [send server requests stdout].
  destruct fault as [e|]; [reflexivity|].
  rewrite Hb. reflexivity.
Qed.

Lemma store_all_cons faults it order objs :
  store_all py_repr faults (it :: order) objs
  = store_all py_repr faults order
      (if upload_ok faults it then <[task_filename py_repr it.2 := test_object]> objs
       else objs).
Proof. reflexivity. Qed.



(** What is in the bucket afterwards was there before or is the test object. *)
Lemma store_all_lookup faults order objs name o :
  store_all py_repr faults order objs !! name = Some o →
  objs !! name = Some o ∨ o = test_object.
Proof.
  revert objs. induction order as [|it order IH]; intros objs H; [by left|].
  rewrite store_all_cons in H. apply IH in H as [H|H]; [|by right].
  destruct (upload_ok faults it); [|by left].
  destruct (decide (task_filename py_repr it.2 = name)) as [<-|Hne].
  - rewrite lookup_insert_eq in H. right. congruence.
  - rewrite lookup_insert_ne in H by done. by left.
Qed.

(** The pool runs every pending task once, in some order, whatever the
    faults. *)
Lemma run_pool_spec sched faults n :
  ∀ step pending st objs,
    length pending ≤ n →
    server st !! BUCKET_NAME = Some objs →
    ∃ order,
      order ≡ₚ pending
      ∧ run_pool py_repr sched faults n step pending st
        = (upload_ok faults <$> order,
           {| server := <[BUCKET_NAME := store_all py_repr faults order objs]> (server st);
              requests := requests st ++ (put_request py_repr ∘ snd <$> order);
              stdout := stdout st ++ (upload_line py_repr faults <$> order) |}).
Proof.
  assert (Hnil : ∀ st objs, server st !! BUCKET_NAME = Some objs →
    ([] : list bool, st)
    = (upload_ok faults <$> [],
       {| server := <[BUCKET_NAME := store_all py_repr faults [] objs]> (server st);
          requests := requests st ++ (put_request py_repr ∘ snd <$> ([] : list (nat * task)));
          stdout := stdout st ++ (upload_line py_repr faults <$> []) |})).
  { intros [srv rs out] objs Hb. simpl in *.
    by rewrite insert_id, !app_nil_r. }
  induction n as [|n IH]; intros step pending st objs Hlen Hb.
  - destruct pending; [|simpl in Hlen; lia].
    exists []. split; [done|]. simpl. by apply Hnil.
  - cbn [run_pool].
    destruct (decide (pending = [])) as [->|Hne].
    { exists []. split; [done|]. simpl. by apply Hnil. }
    set (j := sched step mod length pending).
    assert (Hj : j < length pending).
    { apply Nat.mod_upper_bound. destruct pending; [done|simpl; lia]. }
    clearbody j.
    destruct (pending !! j) as [[i [[s y] m]]|] eqn:Hit;
      [|apply lookup_ge_None in Hit; exfalso; revert Hit; apply Nat.lt_nge, Hj].
    rewrite (upload_single_eq _ _ _ _ _ objs Hb).
    set (objs1 := if upload_ok faults (i, (s, y, m))
                  then <[task_filename py_repr (s, y, m) := test_object]> objs
                  else objs).
    match goal with |- context [run_pool _ _ _ n (S step) _ ?st1] =>
      destruct (IH (S step) (delete j pending) st1 objs1) as (order & Hperm & Heq)
    end.
    { rewrite length_delete by eauto. lia. }
    { unfold objs1, upload_ok. simpl. destruct (faults i); simpl.
      - exact Hb.
      - apply lookup_insert_eq. }
    exists ((i, (s, y, m)) :: order). split.
    { rewrite Hperm. symmetry. by apply delete_Permutation. }
    rewrite Heq. cbn [server requests stdout]. rewrite store_all_cons.
    fold objs1. rewrite !fmap_cons, <- !app_assoc. simpl.
    f_equal. f_equal.
    unfold objs1, upload_ok. simpl. destruct (faults i); simpl; [done|].
    by rewrite insert_insert_eq.
Qed.

End UploaderFacts.

(** * Counting the successes *)







(** * The three ways [main] can go *)

Section MainFacts.

Variable py_repr : pyval -> string.

Lemma main_load_fails w e :
  load_sensors (sensors_file w) = Raise e →
  main py_repr w = {| status := Raised e; client := None; final := initial w |}.
Proof. intros H. unfold main. by rewrite H. Qed.

Lemma main_skips w sensors objs :
  load_sensors (sensors_file w) = Ok sensors →
  buckets w !! BUCKET_NAME = Some objs → objs ≠ ∅ →
  main py_repr w
  = {| status := Returned; client := Some (create_minio_client (environ w));
       final := {| server := buckets w;
                   requests := [BucketExists BUCKET_NAME; ListObjects BUCKET_NAME true];
                   stdout := [skip_message] |} |}.
Proof.
  intros Hload Hb Hne. unfold main. rewrite Hload.
  unfold bucket_exists, list_objects. cbn [send server requests stdout].
  rewrite Hb, bool_decide_eq_true_2 by eauto. cbn [negb].
  rewrite bool_decide_eq_true_2; [reflexivity|].
  intros Hnil. apply Hne, map_to_list_empty_iff.
  by apply fmap_nil_inv in Hnil.
Qed.

Lemma generate_and_upload_spec w sensors cfg st objs :
  server st !! BUCKET_NAME = Some objs →
  ∃ order,
    order ≡ₚ imap (fun i t => (i, t)) (generate_tasks (raw_draws w) sensors)
    ∧ generate_and_upload py_repr w sensors cfg st
      = {| status := Returned; client := Some cfg;
           final :=
             {| server := <[BUCKET_NAME := store_all py_repr (faults w) order objs]>
                            (server st);
                requests := requests st ++ (put_request py_repr ∘ snd <$> order);
                stdout := (stdout st ++ (upload_line py_repr (faults w) <$> order))
                          ++ [report (count_successful (upload_ok (faults w) <$> order))
                                (length (generate_tasks (raw_draws w) sensors))] |} |}.
Proof.
  intros Hb. unfold generate_and_upload.
  set (futures := imap (fun i t => (i, t)) (generate_tasks (raw_draws w) sensors)).
  destruct (run_pool_spec py_repr (sched w) (faults w) (length futures) 0 futures st objs)
    as (order & Hperm & Heq); [lia | exact Hb |].
  exists order. split; [exact Hperm|]. by rewrite Heq.
Qed.

Lemma main_uploads w sensors :
  load_sensors (sensors_file w) = Ok sensors →
  buckets w !! BUCKET_NAME = None ∨ buckets w !! BUCKET_NAME = Some ∅ →
  ∃ order,
    order ≡ₚ imap (fun i t => (i, t)) (generate_tasks (raw_draws w) sensors)
    ∧ main py_repr w
      = {| status := Returned; client := Some (create_minio_client (environ w));
           final :=
             {| server := <[BUCKET_NAME := store_all py_repr (faults w) order ∅]>
                            (buckets w);
                requests := [BucketExists BUCKET_NAME; guard_request w]
                            ++ (put_request py_repr ∘ snd <$> order);
                stdout := (upload_line py_repr (faults w) <$> order)
                          ++ [report (count_successful (upload_ok (faults w) <$> order))
                                (length (generate_tasks (raw_draws w) sensors))] |} |}.
Proof.
  intros Hload Hb. unfold main, guard_request. rewrite Hload.
  unfold bucket_exists, list_objects. cbn [send server requests stdout].
  destruct Hb as [Hb|Hb]; rewrite Hb.
  - rewrite bool_decide_eq_false_2 by (intros [? ?]; discriminate). cbn [negb].
    match goal with |- context [generate_and_upload _ _ _ ?cfg ?st] =>
      destruct (generate_and_upload_spec w sensors cfg st ∅) as (order & Hperm & Heq)
    end.
    { apply lookup_insert_eq. }
    exists order. split; [exact Hperm|]. rewrite Heq.
    unfold make_bucket. cbn [send server requests stdout app].
    by rewrite insert_insert_eq.
  - rewrite bool_decide_eq_true_2 by eauto. cbn [negb].
    rewrite map_to_list_empty, bool_decide_eq_false_2 by (intros H; by apply H).
    match goal with |- context [generate_and_upload _ _ _ ?cfg ?st] =>
      destruct (generate_and_upload_spec w sensors cfg st ∅) as (order & Hperm & Heq)
    end.
    { exact Hb. }
    exists order. split; [exact Hperm|]. by rewrite Heq.
Qed.



Lemma uploads_none (pre : list request) :
  Forall (fun r => is_put r = false) pre → uploads pre = [].
Proof.
  unfold uploads. induction 1 as [|r pre Hr _ IH]; [reflexivity|].
  rewrite filter_cons_False; [exact IH|]. rewrite Hr. simpl. tauto.
Qed.

End MainFacts.

(** * The guard, the count, the payload *)

(** C1. When the bucket exists and holds at least one object, no
    [put_object] is sent and the server is left as it was; put the other way
    round, in every run either the bucket was absent or empty at the start,
    or nothing is written. *)
Theorem C1_guard (py_repr : pyval -> string) (w : world) :
  (∀ objs name o,
     buckets w !! BUCKET_NAME = Some objs → objs !! name = Some o →
     uploads (requests (final (main py_repr w))) = []
     ∧ server (final (main py_repr w)) = buckets w)
  ∧ ((buckets w !! BUCKET_NAME = None ∨ buckets w !! BUCKET_NAME = Some ∅)
     ∨ (uploads (requests (final (main py_repr w))) = []
        ∧ server (final (main py_repr w)) = buckets w)).
Proof.
  assert (Hskip : ∀ objs, buckets w !! BUCKET_NAME = Some objs → objs ≠ ∅ →
            uploads (requests (final (main py_repr w))) = []
            ∧ server (final (main py_repr w)) = buckets w).
  { intros objs Hb Hne.
    destruct (load_sensors (sensors_file w)) as [sensors|e] eqn:Hload.
    - by rewrite (main_skips py_repr w sensors objs Hload Hb Hne).
    - by rewrite (main_load_fails py_repr w e Hload). }
  split.
  - intros objs name o Hb Ho. apply (Hskip objs Hb).
    intros ->. by rewrite lookup_empty in Ho.
  - destruct (buckets w !! BUCKET_NAME) as [objs|] eqn:Hb; [|by left; left].
    destruct (decide (objs = ∅)) as [->|Hne]; [by left; right|].
    right. by apply (Hskip objs).
Qed.

Lemma C1_guard_witness :
  let w := {| sensors_file := Parsed (PyList [PyDict [("id", PyStr "s1")]]);
              environ := ∅;
              buckets := {[BUCKET_NAME := {["old.csv" := test_object]}]};
              raw_draws := fun p => p; sched := fun s => s;
              faults := fun _ => None |} in
  buckets w !! BUCKET_NAME = Some {["old.csv" := test_object]}
  ∧ ({["old.csv" := test_object]} : gmap string object) !! "old.csv" = Some test_object
  ∧ uploads (requests (final (main (fun _ => "") w))) = []
  ∧ server (final (main (fun _ => "") w)) = buckets w.
Proof.
  intros w.
  assert (Hb : buckets w !! BUCKET_NAME = Some {["old.csv" := test_object]})
    by reflexivity.
  assert (Ho : ({["old.csv" := test_object]} : gmap string object) !! "old.csv"
               = Some test_object) by reflexivity.
  split; [exact Hb|]. split; [exact Ho|].
  exact (proj1 (C1_guard (fun _ => "") w) _ _ _ Hb Ho).
Defined.



(** C8. When the sensors file is missing or is not JSON, [main] ends with
    the exception of the load: no request has been sent to the server,
    nothing has been printed, and the server is as it was. *)
Theorem C8_load_failure_is_fatal (py_repr : pyval -> string) (w : world) :
  sensors_file w = Missing ∨ sensors_file w = Malformed →
  ∃ e,
    (e = FileNotFoundError ∨ e = JSONDecodeError)
    ∧ load_sensors (sensors_file w) = Raise e
    ∧ status (main py_repr w) = Raised e
    ∧ requests (final (main py_repr w)) = []
    ∧ stdout (final (main py_repr w)) = []
    ∧ server (final (main py_repr w)) = buckets w.
Proof.
  intros [H|H].
  - exists FileNotFoundError.
    rewrite (main_load_fails py_repr w FileNotFoundError) by (by rewrite H).
    rewrite H. split_and!; auto.
  - exists JSONDecodeError.
    rewrite (main_load_fails py_repr w JSONDecodeError) by (by rewrite H).
    rewrite H. split_and!; auto.
Qed.

Lemma C8_load_failure_is_fatal_witness :
  let w := {| sensors_file := Malformed; environ := ∅;
              buckets := {[BUCKET_NAME := ∅]};
              raw_draws := fun p => p; sched := fun s => s;
              faults := fun _ => None |} in
  (sensors_file w = Missing ∨ sensors_file w = Malformed)
  ∧ ∃ e, status (main (fun _ => "") w) = Raised e
         ∧ requests (final (main (fun _ => "") w)) = [].
Proof.
  intros w.
  assert (H : sensors_file w = Missing ∨ sensors_file w = Malformed)
    by (right; reflexivity).
  split; [exact H|].
  destruct (C8_load_failure_is_fatal (fun _ => "") w H) as (e & _ & _ & Hs & Hr & _).
  exists e. split; [exact Hs | exact Hr].
Defined.


(** * The task generator *)

Section GeneratorFacts.

Variable raw : nat -> nat.

(** One step of the sampling loop takes [pool[j]] out of the first [m]
    slots and leaves the others in the first [m - 1]. *)
Lemma sample_step (pool : list Z) (m j : nat) :
  j < m → m ≤ length pool →
  (pool !!! j) :: take (m - 1) (<[j := pool !!! (m - 1)]> pool) ≡ₚ take m pool.
Proof.
  intros Hj Hm. destruct m as [|m]; [lia|].
  replace (S m - 1) with m by lia.
  assert (Hlast : pool !! m = Some (pool !!! m))
    by (apply list_lookup_lookup_total_lt; lia).
  assert (Hpick : pool !! j = Some (pool !!! j))
    by (apply list_lookup_lookup_total_lt; lia).
  rewrite (take_S_r pool m (pool !!! m)) by done.
  destruct (decide (j = m)) as [->|Hne].
  - rewrite list_insert_id by done. apply Permutation_cons_append.
  - rewrite take_insert_lt by lia.
    assert (Hpick' : take m pool !! j = Some (pool !!! j))
      by (rewrite lookup_take_lt by lia; done).
    rewrite insert_take_drop by (rewrite length_take; lia).
    rewrite <- Permutation_cons_append, <- Permutation_middle, Permutation_swap.
    apply perm_skip. rewrite Permutation_middle.
    by rewrite (take_drop_middle (take m pool) j (pool !!! j) Hpick').
Qed.

Lemma sample_loop_spec (n : nat) :
  ∀ k i pool p,
    length pool = n → k + i ≤ n →
    length (sample_loop raw n k i pool p).1 = k
    ∧ ∃ rest, (sample_loop raw n k i pool p).1 ++ rest ≡ₚ take (n - i) pool.
Proof.
  induction k as [|k IH]; intros i pool p Hlen Hk.
  - split; [reflexivity|]. by exists (take (n - i) pool).
  - cbn [sample_loop randbelow].
    set (j := raw p mod (n - i)).
    assert (Hj : j < n - i) by (apply Nat.mod_upper_bound; lia).
    clearbody j.
    set (pool' := <[j := pool !!! (n - i - 1)]> pool).
    destruct (IH (S i) pool' (S p)) as (Hl & rest & Hperm).
    { unfold pool'. by rewrite length_insert. }
    { lia. }
    destruct (sample_loop raw n k (S i) pool' (S p)) as [picked p2].
    simpl in *. split; [by rewrite Hl|].
    exists rest. rewrite Hperm.
    replace (n - S i) with (n - i - 1) by lia.
    apply sample_step; lia.
Qed.

(** [random.sample] returns [k] elements of the population, no position
    being used twice. *)
Lemma sample_spec (population : list Z) (k p : nat) :
  k ≤ length population → NoDup population →
  length (sample raw population k p).1 = k
  ∧ NoDup (sample raw population k p).1
  ∧ ∀ x, x ∈ (sample raw population k p).1 → x ∈ population.
Proof.
  intros Hk Hnd. unfold sample.
  destruct (sample_loop_spec (length population) k 0 population p)
    as (Hl & rest & Hperm); [done | lia |].
  rewrite Nat.sub_0_r, firstn_all in Hperm.
  split_and!; [exact Hl | |].
  - rewrite <- Hperm in Hnd. by apply NoDup_app in Hnd as (? & _ & _).
  - intros x Hx. rewrite <- Hperm. apply elem_of_app. by left.
Qed.

Lemma randint_2_4 (p : nat) :
  ∃ k, (randint raw 2 4 p).1 = Z.of_nat k ∧ 2 ≤ k ≤ 4 ∧ (randint raw 2 4 p).2 = S p.
Proof.
  unfold randint, randbelow. change (Z.to_nat (4 - 2 + 1)) with 3.
  exists (2 + raw p mod 3). cbn [fst snd].
  assert (raw p mod 3 < 3) by (apply Nat.mod_upper_bound; lia).
  split_and!; lia.
Qed.

Lemma year_tasks_spec (sensor_id : pyval) (year : Z) (p : nat) :
  ∃ months,
    (year_tasks raw sensor_id year p).1 = block (sensor_id, year) months
    ∧ good_months months.
Proof.
  unfold year_tasks.
  destruct (randint_2_4 p) as (k & Hk & Hrange & Hp).
  destruct (randint raw 2 4 p) as [kz p1]. simpl in Hk, Hp. subst kz p1.
  rewrite Nat2Z.id.
  destruct (sample_spec (seqZ 1 12) k (S p)) as (Hl & Hnd & Hin).
  { rewrite length_seqZ. lia. }
  { apply NoDup_seqZ. }
  destruct (sample raw (seqZ 1 12) k (S p)) as [months p2]. simpl in *.
  exists months. split; [reflexivity|].
  split_and!; [lia.. | exact Hnd |].
  apply Forall_forall. intros m Hm. apply Hin, elem_of_seqZ in Hm. lia.
Qed.

Lemma years_loop_spec (sensor_id : pyval) (years : list Z) :
  ∀ p, ∃ monthss,
    length monthss = length years
    ∧ (years_loop raw sensor_id years p).1
      = concat (zip_with block ((fun year => (sensor_id, year)) <$> years) monthss)
    ∧ Forall good_months monthss.
Proof.
  induction years as [|year rest IH]; intros p.
  - exists []. by split_and!.
  - cbn [years_loop].
    destruct (year_tasks_spec sensor_id year p) as (months & Hts & Hgood).
    destruct (year_tasks raw sensor_id year p) as [ts p1]. simpl in Hts. subst ts.
    destruct (IH p1) as (monthss & Hlen & Hrest & Hall).
    destruct (years_loop raw sensor_id rest p1) as [ts' p2]. simpl in Hrest. subst ts'.
    exists (months :: monthss). split_and!.
    + simpl. by rewrite Hlen.
    + reflexivity.
    + by constructor.
Qed.

Lemma sensor_years_cons (sensor_id : pyval) (rest : list pyval) :
  sensor_years (sensor_id :: rest)
  = ((fun year => (sensor_id, year)) <$> YEARS) ++ sensor_years rest.
Proof. reflexivity. Qed.

Lemma sensors_loop_spec (sensors : list pyval) :
  ∀ p, ∃ monthss,
    length monthss = length (sensor_years sensors)
    ∧ (sensors_loop raw sensors p).1 = concat (zip_with block (sensor_years sensors) monthss)
    ∧ Forall good_months monthss.
Proof.
  induction sensors as [|sensor_id rest IH]; intros p.
  - exists []. by split_and!.
  - cbn [sensors_loop].
    destruct (years_loop_spec sensor_id YEARS p) as (ms1 & Hlen1 & Hts & Hall1).
    destruct (years_loop raw sensor_id YEARS p) as [ts p1]. simpl in Hts. subst ts.
    destruct (IH p1) as (ms2 & Hlen2 & Hrest & Hall2).
    destruct (sensors_loop raw rest p1) as [ts' p2]. simpl in Hrest. subst ts'.
    exists (ms1 ++ ms2). rewrite sensor_years_cons. split_and!.
    + by rewrite !length_app, length_fmap, Hlen1, Hlen2.
    + rewrite zip_with_app by (by rewrite length_fmap, Hlen1).
      by rewrite concat_app.
    + by apply Forall_app.
Qed.

Lemma length_filter_all {A} (P : A → Prop) `{!∀ x, Decision (P x)} (l : list A) :
  Forall P l → length (filter P l) = length l.
Proof.
  induction 1 as [|x l Hx _ IH]; [reflexivity|].
  rewrite filter_cons_True by done. simpl. by rewrite IH.
Qed.

Lemma length_filter_none {A} (P : A → Prop) `{!∀ x, Decision (P x)} (l : list A) :
  Forall (fun x => ¬ P x) l → length (filter P l) = 0.
Proof.
  induction 1 as [|x l Hx _ IH]; [reflexivity|].
  by rewrite filter_cons_False.
Qed.

(** The tasks of one sensor: its own, of the given years, two to four a
    year. *)
Lemma years_loop_tasks (sensor_id : pyval) (years : list Z) :
  ∀ p,
    Forall (fun t => task_sensor t = sensor_id ∧ task_year t ∈ years
                     ∧ (1 ≤ task_month t ≤ 12)%Z)
      (years_loop raw sensor_id years p).1
    ∧ 2 * length years ≤ length (years_loop raw sensor_id years p).1 ≤ 4 * length years.
Proof.
  induction years as [|year rest IH]; intros p.
  - split; [constructor | simpl; lia].
  - cbn [years_loop].
    destruct (year_tasks_spec sensor_id year p) as (months & Hts & Hl & _ & Hm).
    destruct (year_tasks raw sensor_id year p) as [ts p1]. simpl in Hts. subst ts.
    destruct (IH p1) as (Hall & Hlen).
    destruct (years_loop raw sensor_id rest p1) as [ts' p2]. cbn [fst] in *.
    split.
    + apply Forall_app. split.
      * unfold block. apply Forall_fmap. eapply Forall_impl; [exact Hm|].
        intros m Hm'. unfold compose, task_sensor, task_year, task_month.
        cbn beta iota delta [fst snd] in *.
        split_and!; try reflexivity; try (by left); lia.
      * eapply Forall_impl; [exact Hall|].
        intros t (? & ? & ?). split_and!; try done; try (by right); lia.
    + rewrite length_app. unfold block. rewrite length_fmap. cbn [length]. lia.
Qed.

Lemma sensors_loop_tasks (sensors : list pyval) :
  ∀ p,
    Forall (fun t => task_sensor t ∈ sensors ∧ task_year t ∈ YEARS
                     ∧ (1 ≤ task_month t ≤ 12)%Z)
      (sensors_loop raw sensors p).1.
Proof.
  induction sensors as [|sensor_id rest IH]; intros p; [constructor|].
  cbn [sensors_loop].
  destruct (years_loop_tasks sensor_id YEARS p) as (Hall & _).
  destruct (years_loop raw sensor_id YEARS p) as [ts p1].
  specialize (IH p1).
  destruct (sensors_loop raw rest p1) as [ts' p2]. simpl in *.
  apply Forall_app. split.
  - eapply Forall_impl; [exact Hall|].
    intros t (-> & ? & ?). split; [by left | done].
  - eapply Forall_impl; [exact IH|].
    intros t (? & ? & ?). split; [by right | done].
Qed.

(** A sensor listed [k] times gets the tasks of [k] sensors. *)
Lemma sensors_loop_count (v : pyval) (sensors : list pyval) :
  ∀ p,
    8 * length (filter (fun s => s = v) sensors)
    ≤ length (filter (fun t => task_sensor t = v) (sensors_loop raw sensors p).1)
    ≤ 16 * length (filter (fun s => s = v) sensors).
Proof.
  induction sensors as [|sensor_id rest IH]; intros p; [simpl; lia|].
  cbn [sensors_loop].
  destruct (years_loop_tasks sensor_id YEARS p) as (Hall & Hlen).
  destruct (years_loop raw sensor_id YEARS p) as [ts p1].
  specialize (IH p1).
  destruct (sensors_loop raw rest p1) as [ts' p2]. simpl in Hall, Hlen, IH.
  cbn [fst]. rewrite filter_app, length_app, (filter_cons (fun s => s = v)).
  destruct (decide (sensor_id = v)) as [->|Hne].
  - rewrite (length_filter_all (fun t => task_sensor t = v) ts).
    + simpl length. lia.
    + eapply Forall_impl; [exact Hall|]. by intros t (? & _).
  - rewrite (length_filter_none (fun t => task_sensor t = v) ts).
    + lia.
    + eapply Forall_impl; [exact Hall|]. intros t (? & _). congruence.
Qed.

End GeneratorFacts.

(** C3. The tasks are, for each loaded sensor and each configured year in
    turn, one block of tasks of that sensor and year: 2 to 4 of them, with
    months that are pairwise distinct and lie in 1..12; and the year of every
    task is one of 2022, 2023, 2024, 2025. *)
Theorem C3_tasks_per_sensor_year (raw : nat -> nat) (sensors : list pyval) :
  ∃ monthss,
    length monthss = length (sensor_years sensors)
    ∧ generate_tasks raw sensors = concat (zip_with block (sensor_years sensors) monthss)
    ∧ Forall (fun months => 2 ≤ length months ≤ 4 ∧ NoDup months
                            ∧ Forall (fun m => 1 ≤ m ≤ 12)%Z months) monthss
    ∧ Forall (fun t => task_year t ∈ [2022; 2023; 2024; 2025]%Z
                       ∧ (1 ≤ task_month t ≤ 12)%Z) (generate_tasks raw sensors).
Proof.
  destruct (sensors_loop_spec raw sensors 0) as (monthss & Hlen & Heq & Hgood).
  exists monthss. split_and!; [exact Hlen | exact Heq | exact Hgood |].
  eapply Forall_impl; [apply sensors_loop_tasks|].
  intros t (_ & Hy & Hm). by split.
Qed.

(** C9. The loader keeps duplicates: a value that is the [id] of k records
    is k times in the sensor list, and the generator then produces the tasks
    of k sensors for it (2 to 4 for each of the 4 years, each time).  So two
    tasks can name the same object, as in the run on [dup_world], where 16
    uploads leave 8 objects; a second upload to a name replaces the first. *)
Theorem C9_no_deduplication (py_repr : pyval -> string) (raw : nat -> nat)
    (items : list pyval) (v : pyval) :
  Forall is_record items →
  ∃ sensors,
    load_sensors (Parsed (PyList items)) = Ok sensors
    ∧ length (filter (fun s => s = v) sensors)
      = length (filter (fun item => record_id item = Some v) items)
    ∧ 8 * length (filter (fun s => s = v) sensors)
      ≤ length (filter (fun t => task_sensor t = v) (generate_tasks raw sensors))
      ≤ 16 * length (filter (fun s => s = v) sensors)
    ∧ (let tasks := generate_tasks (raw_draws dup_world) [PyStr "a"; PyStr "a"] in
       let out := final (main py_repr dup_world) in
       load_sensors (sensors_file dup_world) = Ok [PyStr "a"; PyStr "a"]
       ∧ tasks !! 0 = Some (PyStr "a", 2022, 1)%Z
       ∧ tasks !! 8 = Some (PyStr "a", 2022, 1)%Z
       ∧ task_filename py_repr (PyStr "a", 2022, 1)%Z = "a_2022_01.csv"
       ∧ length (uploads (requests out)) = 16
       ∧ size <$> (server out !! BUCKET_NAME) = Some 8)
    ∧ (∀ st objs sensor_id year month,
         server st !! BUCKET_NAME = Some objs →
         let st1 := (upload_single py_repr None sensor_id year month st).2 in
         let st2 := (upload_single py_repr None sensor_id year month st1).2 in
         server st1 !! BUCKET_NAME
         = Some (<[upload_filename py_repr sensor_id year month := test_object]> objs)
         ∧ server st2 = server st1).
Proof.
  intros Hrec. exists (omap record_id items). split_and!.
  - simpl. by apply comprehension_records.
  - apply count_omap_record_id.
  - apply sensors_loop_count.
  - apply sensors_loop_count.
  - vm_compute. by repeat split.
  - intros st objs sensor_id year month Hb st1 st2. subst st2 st1.
    rewrite (upload_single_eq py_repr None _ _ _ st objs Hb). cbn [snd].
    match goal with |- context [upload_single _ _ _ _ _ ?st1] =>
      rewrite (upload_single_eq py_repr None sensor_id year month st1
                 (<[upload_filename py_repr sensor_id year month := test_object]> objs))
    end.
    + cbn [snd server]. split; [apply lookup_insert_eq|].
      by rewrite !insert_insert_eq.
    + cbn [server]. apply lookup_insert_eq.
Qed.

Lemma C9_no_deduplication_witness :
  let items := [PyDict [("id", PyStr "a")]; PyDict [("id", PyStr "b")];
                PyDict [("id", PyStr "a"); ("site", PyStr "x")]] in
  Forall is_record items
  ∧ ∃ sensors,
      load_sensors (Parsed (PyList items)) = Ok sensors
      ∧ length (filter (fun s => s = PyStr "a") sensors)
        = length (filter (fun item => record_id item = Some (PyStr "a")) items)
      ∧ 8 * length (filter (fun s => s = PyStr "a") sensors)
        ≤ length (filter (fun t => task_sensor t = PyStr "a")
                    (generate_tasks (fun p => p) sensors)).
Proof.
  intros items.
  assert (Hrec : Forall is_record items) by (repeat constructor).
  split; [exact Hrec|].
  destruct (C9_no_deduplication (fun _ => "") (fun p => p) items (PyStr "a") Hrec)
    as (sensors & Hload & Hcount & [Hlow _] & _).
  exists sensors. split_and!; assumption.
Defined.

(** * Further properties of the script *)

(** ** The loader on input of another shape *)

Lemma comprehension_raises items e : comprehension items = Raise e → e = TypeError.
Proof.
  induction items as [|item rest IH]; intros H; [discriminate|].
  cbn [comprehension] in H.
  destruct item as [| | | |s|xs|kvs];
    cbn [py_contains py_getitem mbind result_bind] in H; try congruence.
  - destruct (is_substring "id" s); [congruence | by apply IH].
  - destruct (bool_decide (PyStr "id" ∈ xs)); [congruence | by apply IH].
  - destruct (bool_decide ("id" ∈ kvs.*1)) eqn:Hin; [|by apply IH].
    apply bool_decide_eq_true, dict_get_is_Some in Hin as [v Hv].
    rewrite Hv in H. destruct (comprehension rest) as [vs|e']; [discriminate|].
    apply IH. cbn in H. congruence.
Qed.

Lemma comprehension_cons_Ok item rest vs :
  comprehension (item :: rest) = Ok vs → ∃ vs', comprehension rest = Ok vs'.
Proof.
  cbn [comprehension]. intros H.
  destruct item as [| | | |s|xs|kvs];
    cbn [py_contains py_getitem mbind result_bind] in H; try discriminate.
  - destruct (is_substring "id" s); [discriminate | eauto].
  - destruct (bool_decide (PyStr "id" ∈ xs)); [discriminate | eauto].
  - destruct (bool_decide ("id" ∈ kvs.*1)); [|eauto].
    destruct (dict_get "id" kvs); [|discriminate].
    destruct (comprehension rest) as [vs'|]; [eauto | discriminate].
Qed.

Lemma comprehension_scalar items :
  Exists is_scalar items → comprehension items = Raise TypeError.
Proof.
  induction 1 as [item rest Hs|item rest _ IH].
  - by destruct item.
  - destruct (comprehension (item :: rest)) as [vs|e] eqn:E.
    + apply comprehension_cons_Ok in E as [vs' E]. congruence.
    + by apply comprehension_raises in E as ->.
Qed.

Lemma comprehension_strings (ks : list string) :
  comprehension (PyStr <$> ks)
  = if existsb (is_substring "id") ks then Raise TypeError else Ok [].
Proof.
  induction ks as [|k ks IH]; [reflexivity|].
  rewrite fmap_cons. cbn [comprehension py_contains py_getitem mbind result_bind existsb].
  destruct (is_substring "id" k); [reflexivity | exact IH].
Qed.

Lemma elem_of_dict_keys k kvs : k ∈ dict_keys kvs ↔ k ∈ kvs.*1.
Proof. unfold dict_keys. by rewrite elem_of_reverse, elem_of_remove_dups, elem_of_reverse. Qed.

Lemma existsb_dict_keys (p : string → bool) kvs :
  existsb p (dict_keys kvs) = existsb p (kvs.*1).
Proof.
  apply eq_true_iff_eq. rewrite !existsb_exists.
  split; intros (k & Hk & Hp); exists k; split; try done;
    apply list_elem_of_In; apply list_elem_of_In in Hk; by apply elem_of_dict_keys.
Qed.

Lemma existsb_chars s : existsb (is_substring "id") (chars s) = false.
Proof.
  unfold chars. induction (String.list_ascii_of_string s) as [|c cs IH]; [reflexivity|].
  rewrite fmap_cons. cbn [existsb]. rewrite IH, orb_false_r.
  cbn [is_substring String.prefix]. by destruct (ascii_dec "i" c).
Qed.

(** X1. Whatever the sensors file holds, the load never ends with a
    [KeyError]: [item['id']] is only evaluated after ['id' in item] has
    answered yes. *)
Theorem load_never_KeyError (f : file_outcome) :
  match load_sensors f with
  | Raise KeyError => False
  | _ => True
  end.
Proof.
  destruct (load_sensors f) as [|e] eqn:E; [done|].
  destruct e; try done.
  destruct f as [| |v]; try discriminate. simpl in E.
  destruct v; try discriminate; cbn [py_iter mbind result_bind] in E;
    by apply comprehension_raises in E.
Qed.

(** X2. A file that parses to something other than an array: a string
    yields no sensor, an object yields none either unless one of its keys
    contains [id] (the key, a string, cannot be indexed by ["id"]), and
    [null], a boolean or a number cannot be iterated. *)
Theorem load_not_an_array :
  (∀ s, load_sensors (Parsed (PyStr s)) = Ok [])
  ∧ (∀ kvs, load_sensors (Parsed (PyDict kvs))
            = if existsb (is_substring "id") (kvs.*1) then Raise TypeError else Ok [])
  ∧ load_sensors (Parsed PyNone) = Raise TypeError
  ∧ (∀ b, load_sensors (Parsed (PyBool b)) = Raise TypeError)
  ∧ (∀ z, load_sensors (Parsed (PyInt z)) = Raise TypeError)
  ∧ (∀ r, load_sensors (Parsed (PyFloat r)) = Raise TypeError).
Proof.
  split_and!; try done.
  - intros s. cbn [load_sensors py_iter mbind result_bind].
    by rewrite comprehension_strings, existsb_chars.
  - intros kvs. cbn [load_sensors py_iter mbind result_bind].
    by rewrite comprehension_strings, existsb_dict_keys.
Qed.

(** X3. One element of the array that is [null], a boolean or a number is
    enough for the whole load to fail, whatever the other elements are: [main]
    ends with [TypeError] before the client is created, and nothing has been
    sent or printed. *)
Theorem scalar_element_is_fatal (py_repr : pyval -> string) (w : world)
    (items : list pyval) :
  sensors_file w = Parsed (PyList items) →
  Exists is_scalar items →
  status (main py_repr w) = Raised TypeError
  ∧ client (main py_repr w) = None
  ∧ requests (final (main py_repr w)) = []
  ∧ stdout (final (main py_repr w)) = []
  ∧ server (final (main py_repr w)) = buckets w.
Proof.
  intros Hf Hs.
  rewrite (main_load_fails py_repr w TypeError); [by split_and!|].
  rewrite Hf. cbn [load_sensors py_iter mbind result_bind].
  by apply comprehension_scalar.
Qed.

Lemma scalar_element_is_fatal_witness :
  let items := [PyDict [("id", PyStr "s1")]; PyNone; PyDict [("id", PyStr "s2")]] in
  let w := {| sensors_file := Parsed (PyList items); environ := ∅; buckets := ∅;
              raw_draws := fun p => p; sched := fun s => s;
              faults := fun _ => None |} in
  sensors_file w = Parsed (PyList items)
  ∧ Exists is_scalar items
  ∧ status (main (fun _ => "") w) = Raised TypeError
  ∧ requests (final (main (fun _ => "") w)) = [].
Proof.
  intros items w.
  assert (Hf : sensors_file w = Parsed (PyList items)) by reflexivity.
  assert (Hs : Exists is_scalar items) by (right; left; exact I).
  split; [exact Hf|]. split; [exact Hs|].
  destruct (scalar_element_is_fatal (fun _ => "") w items Hf Hs) as (H1 & _ & H2 & _).
  split; [exact H1 | exact H2].
Defined.

(** ** The client and one upload *)

(** X4. The client is built from four environment variables and from
    nothing else: setting or unsetting any other variable gives the same
    client. *)
Theorem client_reads_four_variables (environ : gmap string string) (k v : string) :
  k ∉ client_variables →
  create_minio_client (<[k := v]> environ) = create_minio_client environ
  ∧ create_minio_client (delete k environ) = create_minio_client environ.
Proof.
  intros Hk. unfold client_variables in Hk.
  assert (k ≠ "MINIO_ENDPOINT" ∧ k ≠ "MINIO_ACCESS_KEY"
          ∧ k ≠ "MINIO_SECRET_KEY" ∧ k ≠ "MINIO_SECURE") as (? & ? & ? & ?).
  { split_and!; intros ->; apply Hk; repeat first [by left | right]. }
  unfold create_minio_client, getenv, getenv_default.
  split.
  - by rewrite !lookup_insert_ne.
  - by rewrite !lookup_delete_ne.
Qed.

Lemma client_reads_four_variables_witness :
  let environ : gmap string string := {["MINIO_SECURE" := "true"]} in
  ("HOME" ∉ client_variables)
  ∧ create_minio_client (<["HOME" := "/root"]> environ) = create_minio_client environ.
Proof.
  intros environ.
  assert (Hk : "HOME" ∉ client_variables).
  { apply (bool_decide_unpack _). vm_compute. reflexivity. }
  split; [exact Hk|].
  exact (proj1 (client_reads_four_variables environ "HOME" "/root" Hk)).
Defined.

(** X5. An upload touches one object at most: every object of another
    name or of another bucket is after the upload what it was before, whether
    the request went through or not. *)
Theorem upload_leaves_the_rest (py_repr : pyval -> string) (fault : option string)
    (sensor_id : pyval) (year month : Z) (st : state) (b name : string) :
  b ≠ BUCKET_NAME ∨ name ≠ upload_filename py_repr sensor_id year month →
  server (upload_single py_repr fault sensor_id year month st).2 !! b ≫= (.!! name)
  = server st !! b ≫= (.!! name).
Proof.
  intros Hne. unfold upload_single, put_object. cbn [send server requests stdout].
  destruct fault as [e|]; [reflexivity|].
  destruct (server st !! BUCKET_NAME) as [objs|] eqn:Hb; [|reflexivity].
  cbn [snd print server].
  destruct (decide (b = BUCKET_NAME)) as [->|Hb'].
  - destruct Hne as [?|Hname]; [done|].
    rewrite lookup_insert_eq, Hb. simpl. by rewrite lookup_insert_ne.
  - by rewrite lookup_insert_ne.
Qed.

Lemma upload_leaves_the_rest_witness :
  let st := {| server := {[BUCKET_NAME := {["old.csv" := test_object]}]};
               requests := []; stdout := [] |} in
  ("paws" ≠ BUCKET_NAME ∨ "old.csv" ≠ upload_filename (fun _ => "") (PyStr "s1") 2022 3)
  ∧ server (upload_single (fun _ => "") None (PyStr "s1") 2022 3 st).2 !! "paws"
      ≫= (.!! "old.csv")
    = server st !! "paws" ≫= (.!! "old.csv").
Proof.
  intros st.
  assert (H : "paws" ≠ BUCKET_NAME
              ∨ "old.csv" ≠ upload_filename (fun _ => "") (PyStr "s1") 2022 3).
  { right. vm_compute. discriminate. }
  split; [exact H|].
  exact (upload_leaves_the_rest (fun _ => "") None (PyStr "s1") 2022 3 st
           "paws" "old.csv" H).
Defined.

(** ** File names *)

Lemma string_app_length (a b : string) :
  String.length (a +:+ b) = String.length a + String.length b.
Proof. induction a as [|c a IH]; [reflexivity|]. simpl. by rewrite IH. Qed.

Lemma string_app_inv_suffix (a b s1 s2 : string) :
  String.length s1 = String.length s2 → a +:+ s1 = b +:+ s2 → a = b ∧ s1 = s2.
Proof.
  revert b. induction a as [|c a IH]; intros [|c' b] Hlen H.
  - done.
  - exfalso. apply (f_equal String.length) in H.
    rewrite !string_app_length in H. cbn [String.length] in H. lia.
  - exfalso. apply (f_equal String.length) in H.
    rewrite !string_app_length in H. cbn [String.length] in H. lia.
  - simpl in H. injection H as -> H. by destruct (IH b Hlen H) as [-> ->].
Qed.

Lemma NoDup_fmap_inj_on {A B} (f : A → B) (l : list A) x y :
  NoDup (f <$> l) → x ∈ l → y ∈ l → f x = f y → x = y.
Proof.
  induction l as [|a l IH]; intros Hnd Hx Hy Hf; [inversion Hx|].
  rewrite fmap_cons in Hnd. apply NoDup_cons in Hnd as [Ha Hnd].
  apply elem_of_cons in Hx as [->|Hx]; apply elem_of_cons in Hy as [->|Hy]; auto.
  - exfalso. apply Ha. rewrite Hf. by apply list_elem_of_fmap_2.
  - exfalso. apply Ha. rewrite <- Hf. by apply list_elem_of_fmap_2.
Qed.

(** The 48 suffixes of the years and months the generator can produce. *)
Lemma filename_suffixes :
  Forall (fun ym => String.length (filename_suffix ym.1 ym.2) = 12)
    (cprod YEARS (seqZ 1 12))
  ∧ NoDup ((fun ym => filename_suffix ym.1 ym.2) <$> cprod YEARS (seqZ 1 12)).
Proof. split; apply (bool_decide_unpack _); vm_compute; reflexivity. Qed.

Lemma filename_suffix_inj (y1 y2 m1 m2 : Z) :
  y1 ∈ YEARS → y2 ∈ YEARS → (1 ≤ m1 ≤ 12)%Z → (1 ≤ m2 ≤ 12)%Z →
  String.length (filename_suffix y1 m1) = String.length (filename_suffix y2 m2)
  ∧ (filename_suffix y1 m1 = filename_suffix y2 m2 → y1 = y2 ∧ m1 = m2).
Proof.
  intros Hy1 Hy2 Hm1 Hm2.
  destruct filename_suffixes as [Hlen Hnd].
  assert (Hin1 : (y1, m1) ∈ cprod YEARS (seqZ 1 12)).
  { apply list_elem_of_cprod. split; [done|]. apply elem_of_seqZ. simpl. lia. }
  assert (Hin2 : (y2, m2) ∈ cprod YEARS (seqZ 1 12)).
  { apply list_elem_of_cprod. split; [done|]. apply elem_of_seqZ. simpl. lia. }
  pose proof (proj1 (Forall_forall _ _) Hlen _ Hin1) as Hl1.
  pose proof (proj1 (Forall_forall _ _) Hlen _ Hin2) as Hl2.
  cbn [fst snd] in Hl1, Hl2.
  split; [by rewrite Hl1, Hl2|].
  intros Hsuf.
  pose proof (NoDup_fmap_inj_on (fun ym => filename_suffix ym.1 ym.2) _
                (y1, m1) (y2, m2) Hnd Hin1 Hin2 Hsuf) as Hym.
  by injection Hym.
Qed.

(** X6. For the years and months the generator produces, the name of the
    object determines the formatted sensor, the year and the month: two tasks
    share a name only when they agree on all three. *)
Theorem filename_determines_task (py_repr : pyval -> string)
    (s1 s2 : pyval) (y1 y2 m1 m2 : Z) :
  y1 ∈ YEARS → y2 ∈ YEARS → (1 ≤ m1 ≤ 12)%Z → (1 ≤ m2 ≤ 12)%Z →
  upload_filename py_repr s1 y1 m1 = upload_filename py_repr s2 y2 m2 →
  py_format py_repr s1 = py_format py_repr s2 ∧ y1 = y2 ∧ m1 = m2.
Proof.
  intros Hy1 Hy2 Hm1 Hm2 Heq.
  destruct (filename_suffix_inj y1 y2 m1 m2 Hy1 Hy2 Hm1 Hm2) as [Hlen Hinj].
  change (py_format py_repr s1 +:+ filename_suffix y1 m1
          = py_format py_repr s2 +:+ filename_suffix y2 m2) in Heq.
  apply string_app_inv_suffix in Heq as [Hs Hsuf]; [|exact Hlen].
  split; [exact Hs | by apply Hinj].
Qed.

Lemma filename_determines_task_witness :
  (2023 ∈ YEARS)%Z ∧ (1 ≤ 7 ≤ 12)%Z
  ∧ (upload_filename (fun _ => "") (PyInt 5) 2023 7
     = upload_filename (fun _ => "") (PyStr "5") 2023 7)
  ∧ py_format (fun _ => "") (PyInt 5) = py_format (fun _ => "") (PyStr "5").
Proof.
  assert (Hy : (2023 ∈ YEARS)%Z) by (right; left).
  assert (Hm : (1 ≤ 7 ≤ 12)%Z) by lia.
  assert (Heq : upload_filename (fun _ => "") (PyInt 5) 2023 7
                = upload_filename (fun _ => "") (PyStr "5") 2023 7)
    by (vm_compute; reflexivity).
  split; [exact Hy|]. split; [exact Hm|]. split; [exact Heq|].
  exact (proj1 (filename_determines_task (fun _ => "") (PyInt 5) (PyStr "5")
                  2023 2023 7 7 Hy Hy Hm Hm Heq)).
Defined.

(** ** The number of tasks *)

(** X7. Every sensor of the list gets between 8 and 16 tasks (2 to 4 for
    each of the 4 years), so a list of n sensors gives between 8n and 16n
    tasks; no sensor gives no task. *)
Theorem task_count_bounds (raw : nat -> nat) (sensors : list pyval) :
  8 * length sensors ≤ length (generate_tasks raw sensors) ≤ 16 * length sensors.
Proof.
  unfold generate_tasks.
  cut (∀ p, 8 * length sensors ≤ length (sensors_loop raw sensors p).1
            ≤ 16 * length sensors); [intros H; apply H|].
  induction sensors as [|sensor_id rest IH]; intros p; [simpl; lia|].
  cbn [sensors_loop].
  destruct (years_loop_tasks raw sensor_id YEARS p) as (_ & Hlen).
  destruct (years_loop raw sensor_id YEARS p) as [ts p1].
  specialize (IH p1).
  destruct (sensors_loop raw rest p1) as [ts' p2]. simpl in Hlen, IH.
  cbn [fst length]. rewrite length_app. lia.
Qed.

(** ** The bucket after a run *)






(** The three ways [main] can go, in one statement. *)
Lemma main_outcome_cases py_repr (w : world) :
  (∃ e, load_sensors (sensors_file w) = Raise e
        ∧ main py_repr w = {| status := Raised e; client := None; final := initial w |})
  ∨ (∃ sensors objs,
       load_sensors (sensors_file w) = Ok sensors
       ∧ buckets w !! BUCKET_NAME = Some objs ∧ objs ≠ ∅
       ∧ main py_repr w
         = {| status := Returned; client := Some (create_minio_client (environ w));
              final := {| server := buckets w;
                          requests := [BucketExists BUCKET_NAME;
                                       ListObjects BUCKET_NAME true];
                          stdout := [skip_message] |} |})
  ∨ (∃ sensors order,
       load_sensors (sensors_file w) = Ok sensors
       ∧ (buckets w !! BUCKET_NAME = None ∨ buckets w !! BUCKET_NAME = Some ∅)
       ∧ order ≡ₚ imap (fun i t => (i, t)) (generate_tasks (raw_draws w) sensors)
       ∧ main py_repr w
         = {| status := Returned; client := Some (create_minio_client (environ w));
              final :=
                {| server := <[BUCKET_NAME := store_all py_repr (faults w) order ∅]>
                               (buckets w);
                   requests := [BucketExists BUCKET_NAME; guard_request w]
                               ++ (put_request py_repr ∘ snd <$> order);
                   stdout := (upload_line py_repr (faults w) <$> order)
                             ++ [report (count_successful (upload_ok (faults w) <$> order))
                                   (length (generate_tasks (raw_draws w) sensors))] |} |}).
Proof.
  destruct (load_sensors (sensors_file w)) as [sensors|e] eqn:Hload.
  - assert (Hcases : buckets w !! BUCKET_NAME = None
                     ∨ buckets w !! BUCKET_NAME = Some ∅
                     ∨ ∃ objs, buckets w !! BUCKET_NAME = Some objs ∧ objs ≠ ∅).
    { destruct (buckets w !! BUCKET_NAME) as [objs|]; [|by left].
      destruct (decide (objs = ∅)) as [->|Hne]; [by right; left|].
      right; right. eauto. }
    destruct Hcases as [Hb|[Hb|(objs & Hb & Hne)]].
    + destruct (main_uploads py_repr w sensors Hload (or_introl Hb))
        as (order & Hperm & Heq).
      right; right. exists sensors, order. by split_and!; [|left|..].
    + destruct (main_uploads py_repr w sensors Hload (or_intror Hb))
        as (order & Hperm & Heq).
      right; right. exists sensors, order. by split_and!; [|right|..].
    + right; left. exists sensors, objs.
      split_and!; try done. by apply (main_skips py_repr w sensors objs).
  - left. exists e. split; [done|]. by apply main_load_fails.
Qed.



(** X9. No bucket but the one of the script is ever touched: every other
    bucket of the server is after the run what it was before, however the run
    ends. *)
Theorem other_buckets_untouched (py_repr : pyval -> string) (w : world) (b : string) :
  b ≠ BUCKET_NAME →
  server (final (main py_repr w)) !! b = buckets w !! b.
Proof.
  intros Hb.
  destruct (main_outcome_cases py_repr w)
    as [(e & _ & ->)|[(ss & objs & _ & _ & _ & ->)|(ss & order & _ & _ & _ & ->)]];
    cbn [final server initial]; try reflexivity.
  by rewrite lookup_insert_ne.
Qed.

Lemma other_buckets_untouched_witness :
  let w := {| sensors_file := Parsed (PyList [PyDict [("id", PyStr "s1")]]);
              environ := ∅;
              buckets := {["archive" := {["a.csv" := test_object]}]};
              raw_draws := fun p => p; sched := fun s => s;
              faults := fun _ => None |} in
  "archive" ≠ BUCKET_NAME
  ∧ server (final (main (fun _ => "") w)) !! "archive" = buckets w !! "archive".
Proof.
  intros w.
  assert (H : "archive" ≠ BUCKET_NAME) by discriminate.
  split; [exact H | exact (other_buckets_untouched (fun _ => "") w "archive" H)].
Defined.
















(** ** Sensors that format differently *)







